(** * Sliding-window rate limiter: a shallow embedding and its properties

    The development follows the three Go files of the package:
    - [limiter.go]: [Request], [State], [Result] and the [Strategy] interface;
    - the counter strategy ([counterStrategy.Run]), which talks to a Redis
      sorted set through a probe ([ZCount]) and a pipeline
      ([ZRemRangeByScore], [ZAdd], [ZCount]);
    - [middleware.go]: the header extractor and the HTTP middleware.

    The Redis client, the clock and the UUID generator are not part of the
    package.  The clock reading and the UUID are arguments of [Run]; the
    client is an arbitrary [Handler] answering the round trips that [Run]
    issues, with the fault-free sorted-set semantics as one instance. *)

From Stdlib Require Import ZArith String List Lia DecimalString.
From stdpp Require Import gmap strings list fin_maps.

Local Open Scope Z_scope.

(** ** Machine integers *)

(** Go's [uint64(x)] conversion of an [int64]. *)
Definition uint64 (z : Z) : Z := z mod 2 ^ 64.

(** Wrap-around of an [int64] operation. *)
Definition wrap_int64 (z : Z) : Z := (z + 2 ^ 63) mod 2 ^ 64 - 2 ^ 63.

Definition is_uint64 (z : Z) : Prop := 0 <= z < 2 ^ 64.

(** ** Package [time]

    A [Time] is the number of nanoseconds since the Unix epoch (the calendar
    range of [time.Time] is far larger than any [int64] number of
    milliseconds, and is not bounded here); a [Duration] is an [int64]
    number of nanoseconds. *)
Module time.
Definition Time := Z.
Definition Duration := Z.

(** [t.Add(d)] *)
Definition Add (t : Time) (d : Duration) : Time := t + d.

(** [-d] on an [int64]. *)
Definition neg (d : Duration) : Duration := wrap_int64 (- d).

(** [t.UnixMilli()]: the milliseconds elapsed since the epoch, rounded
    towards minus infinity. *)
Definition UnixMilli (t : Time) : Z := t / 1000000.

Definition Millisecond : Duration := 1000000.
Definition Second : Duration := 1000000000.
End time.

(** ** Package [errors] *)

(** An error is either a value produced outside the package (by the Redis
    client) or one built by [errors.Wrapf] around a cause. *)
Inductive error : Type :=
| ErrNew (msg : string)
| Wrapf (cause : error) (msg : string).

(** [err.Error()]: the message of a wrapped error is its own message, a colon
    and the message of its cause. *)
Fixpoint Error (e : error) : string :=
  match e with
  | ErrNew msg => msg
  | Wrapf cause msg => msg +:+ ": " +:+ Error cause
  end.

(** ** limiter.go *)

Record Request := {
  Key : string;
  Limit : Z;                      (* uint64 *)
  Duration : time.Duration
}.

(** [type State int16] with its two named constants. *)
Definition State := Z.
Definition Deny : State := 0.
Definition Allow : State := 1.

Module Result.
Record t := mk {
  State : State;
  TotalRequests : Z;            (* uint64 *)
  ExpiresAt : time.Time
}.
End Result.

(** What [Run] returns: a [*Result] that may be nil and an [error] that may
    be nil. *)
Definition Outcome : Type := option Result.t * option error.

(** ** The Redis client, as far as the counter strategy uses it *)
Module redis.

(** A score bound of a range command: ["-inf"], ["+inf"] or the decimal
    rendering of an [int64] (the client sends the string that
    [strconv.FormatInt] produces, the server reads the same number back).
    All the bounds the package sends are inclusive. *)
Inductive bound := NegInf | PosInf | Score (z : Z).

Inductive Cmd :=
| ZCount (key : string) (min max : bound)
| ZRemRangeByScore (key : string) (min max : bound)
| ZAdd (key : string) (score : Z) (member : string).

(** The reply slot of a command ([*redis.IntCmd]): an [int64] value and an
    error. *)
Record IntCmd := { val : Z; err : option error }.

(** The state of a command that was queued and never answered. *)
Definition unanswered : IntCmd := {| val := 0; err := None |}.

Definition is_write (c : Cmd) : bool :=
  match c with
  | ZCount _ _ _ => false
  | ZRemRangeByScore _ _ _ | ZAdd _ _ _ => true
  end.
End redis.

(** ** Programs over the client

    [Run] makes at most two round trips: one command sent on its own, and one
    pipeline.  A program is the tree of these round trips with the code that
    runs on each reply. *)
Inductive Prog (A : Type) : Type :=
| Ret (a : A)
| Send (c : redis.Cmd) (k : redis.IntCmd -> Prog A)
| Exec (cs : list redis.Cmd) (k : option error -> list redis.IntCmd -> Prog A).
Arguments Ret {A} a.
Arguments Send {A} c k.
Arguments Exec {A} cs k.

Notation "'send' x <- c ;; p" := (Send c (fun x => p))
  (at level 10, x name, c at level 99, p at level 200, only parsing).
Notation "'exec' ( e , rs ) <- cs ;; p" := (Exec cs (fun e rs => p))
  (at level 10, e name, rs name, cs at level 99, p at level 200, only parsing).

(** ** counterStrategy.Run

    [now] is the value of [s.now()] and [item] the string of [uuid.New()]. *)
Definition Run (now : time.Time) (item : string) (r : Request) : Prog Outcome :=
  let expiresAt := time.Add now (Duration r) in
  let minimum := time.Add now (time.neg (Duration r)) in
  send probe <- redis.ZCount (Key r) (redis.Score (time.UnixMilli minimum)) redis.PosInf ;;
  let result := uint64 (redis.val probe) in
  if bool_decide (redis.err probe <> None) && bool_decide (Limit r <= result) then
    Ret (Some {| Result.State := Deny;
                 Result.TotalRequests := result;
                 Result.ExpiresAt := expiresAt |}, None)
  else
    exec (exec_err, replies) <-
       [ redis.ZRemRangeByScore (Key r) (redis.Score 0) (redis.Score (time.UnixMilli minimum));
         redis.ZAdd (Key r) (time.UnixMilli now) item;
         redis.ZCount (Key r) redis.NegInf redis.PosInf ] ;;
    let removeByScore := nth 0 replies redis.unanswered in
    let add := nth 1 replies redis.unanswered in
    let count := nth 2 replies redis.unanswered in
    match exec_err with
    | Some err =>
        Ret (None, Some (Wrapf err ("failed to execute sorted set pipeline for key: " +:+ Key r)))
    | None =>
    match redis.err removeByScore with
    | Some err =>
        Ret (None, Some (Wrapf err ("failed to remove items from key " +:+ Key r)))
    | None =>
    match redis.err add with
    | Some err =>
        Ret (None, Some (Wrapf err ("failed to add item to key " +:+ Key r)))
    | None =>
    match redis.err count with
    | Some err =>
        Ret (None, Some (Wrapf err ("failed to count items for key " +:+ Key r)))
    | None =>
        let requests := uint64 (redis.val count) in
        if bool_decide (Limit r < requests) then
          Ret (Some {| Result.State := Deny;
                       Result.TotalRequests := requests;
                       Result.ExpiresAt := expiresAt |}, None)
        else
          Ret (Some {| Result.State := Allow;
                       Result.TotalRequests := requests;
                       Result.ExpiresAt := expiresAt |}, None)
    end end end end.

(** ** The store: one sorted set per key

    A sorted set maps each member to its score, so a member occurs once.
    Scores are [float64] on the server; every score the package writes is an
    integer number of milliseconds, which [float64] holds exactly below
    [2^53], and is kept as an integer here. *)
Module store.

Definition ge_bound (lo : redis.bound) (s : Z) : bool :=
  match lo with
  | redis.NegInf => true
  | redis.PosInf => false
  | redis.Score z => z <=? s
  end.

Definition le_bound (hi : redis.bound) (s : Z) : bool :=
  match hi with
  | redis.NegInf => false
  | redis.PosInf => true
  | redis.Score z => s <=? z
  end.

(** [lo <= s <= hi], both ends included. *)
Definition in_range (lo hi : redis.bound) (s : Z) : bool :=
  ge_bound lo s && le_bound hi s.

(** The members of a set whose score lies in the range, and the others. *)
Definition within (lo hi : redis.bound) (zs : gmap string Z) : gmap string Z :=
  filter (fun ms => in_range lo hi ms.2 = true) zs.

Definition outside (lo hi : redis.bound) (zs : gmap string Z) : gmap string Z :=
  filter (fun ms => in_range lo hi ms.2 = false) zs.

(** The sorted set at a key; a key that does not exist holds the empty set. *)
Definition zset_of (st : gmap string (gmap string Z)) (key : string) : gmap string Z :=
  default ∅ (st !! key).

(** A key whose set becomes empty is removed. *)
Definition put (st : gmap string (gmap string Z)) (key : string) (zs : gmap string Z)
    : gmap string (gmap string Z) :=
  if decide (zs = ∅) then delete key st else <[key := zs]> st.

(** The integer reply and the effect of one command that succeeds. *)
Definition apply (c : redis.Cmd) (st : gmap string (gmap string Z))
    : Z * gmap string (gmap string Z) :=
  match c with
  | redis.ZCount key lo hi =>
      (Z.of_nat (size (within lo hi (zset_of st key))), st)
  | redis.ZRemRangeByScore key lo hi =>
      let zs := zset_of st key in
      (Z.of_nat (size (within lo hi zs)), put st key (outside lo hi zs))
  | redis.ZAdd key score member =>
      let zs := zset_of st key in
      ((if zs !! member is Some _ then 0 else 1),
       <[key := <[member := score]> zs]> st)
  end.

Fixpoint apply_all (cs : list redis.Cmd) (st : gmap string (gmap string Z))
    : list redis.IntCmd * gmap string (gmap string Z) :=
  match cs with
  | [] => ([], st)
  | c :: cs' =>
      let '(v, st') := apply c st in
      let '(rs, st'') := apply_all cs' st' in
      ({| redis.val := v; redis.err := None |} :: rs, st'')
  end.

End store.

(** ** Clients

    A client answers each round trip from a state of its own: the reply of a
    single command, and for a pipeline the error of [Exec] with the replies
    of the queued commands.  Nothing is assumed of the answers, so a handler
    covers a healthy store, a failing one, and a store that other processes
    write to between two round trips. *)
Record Handler (S : Type) := {
  on_send : redis.Cmd -> S -> redis.IntCmd * S;
  on_exec : list redis.Cmd -> S -> (option error * list redis.IntCmd) * S
}.
Arguments on_send {S} h c s.
Arguments on_exec {S} h cs s.

(** What went over the wire. *)
Inductive Event :=
| Sent (c : redis.Cmd) (reply : redis.IntCmd)
| Executed (cs : list redis.Cmd) (e : option error) (replies : list redis.IntCmd).

Fixpoint interp {S A : Type} (h : Handler S) (p : Prog A) (s : S) : A * S * list Event :=
  match p with
  | Ret a => (a, s, [])
  | Send c k =>
      let '(reply, s1) := on_send h c s in
      let '(a, s2, tr) := interp h (k reply) s1 in
      (a, s2, Sent c reply :: tr)
  | Exec cs k =>
      let '(e, replies, s1) := on_exec h cs s in
      let '(a, s2, tr) := interp h (k e replies) s1 in
      (a, s2, Executed cs e replies :: tr)
  end.

Definition event_cmds (ev : Event) : list redis.Cmd :=
  match ev with
  | Sent c _ => [c]
  | Executed cs _ _ => cs
  end.

(** The commands of a trace, and those among them that change the store. *)
Definition trace_cmds (tr : list Event) : list redis.Cmd := flat_map event_cmds tr.

Definition writes (tr : list Event) : list redis.Cmd :=
  List.filter redis.is_write (trace_cmds tr).

(** The errors a round trip reported: that of the command, or that of [Exec]
    and those of the queued commands. *)
Definition event_errors (ev : Event) : list error :=
  match ev with
  | Sent _ reply => option_list (redis.err reply)
  | Executed _ e replies => option_list e ++ flat_map (fun r => option_list (redis.err r)) replies
  end.

Definition store_errors (tr : list Event) : list error := flat_map event_errors tr.

(** The store with no fault: every command succeeds with the sorted-set
    semantics, and nobody else writes. *)
Definition healthy : Handler (gmap string (gmap string Z)) := {|
  on_send c st :=
    let '(v, st') := store.apply c st in
    ({| redis.val := v; redis.err := None |}, st');
  on_exec cs st :=
    let '(rs, st') := store.apply_all cs st in
    ((None, rs), st')
|}.

(** A store whose round trips fail as a plan says: the head of the plan is
    taken at each round trip, [Some e] makes the whole round trip fail with
    [e] (no value, no effect), [None] or an exhausted plan lets it through. *)
Definition failed_with (e : error) : redis.IntCmd :=
  {| redis.val := 0; redis.err := Some e |}.

Definition flaky : Handler (gmap string (gmap string Z) * list (option error)) := {|
  on_send c s :=
    match s.2 with
    | Some e :: plan => (failed_with e, (s.1, plan))
    | _ => let '(reply, st') := on_send healthy c s.1 in (reply, (st', tail s.2))
    end;
  on_exec cs s :=
    match s.2 with
    | Some e :: plan => ((Some e, map (fun _ => failed_with e) cs), (s.1, plan))
    | _ => let '(reply, st') := on_exec healthy cs s.1 in (reply, (st', tail s.2))
    end
|}.

(** A healthy store that other processes write to: before each round trip
    of the evaluation, the commands the others got through since the last
    one are applied (the head of the schedule). *)
Definition shared : Handler (gmap string (gmap string Z) * list (list redis.Cmd)) := {|
  on_send c s :=
    let '(reply, st') := on_send healthy c (store.apply_all (hd [] s.2) s.1).2 in
    (reply, (st', tail s.2));
  on_exec cs s :=
    let '(reply, st') := on_exec healthy cs (store.apply_all (hd [] s.2) s.1).2 in
    (reply, (st', tail s.2))
|}.

(** ** Evaluations *)

(** One evaluation against a client: the outcome, the client's state
    afterwards and the round trips made. *)
Definition evaluate {S : Type} (h : Handler S) (now : time.Time) (item : string)
    (r : Request) (s : S) : Outcome * S * list Event :=
  interp h (Run now item r) s.

(** Evaluations of one request made one after the other, each at its own time
    and with its own identifier. *)
Fixpoint evaluate_all {S : Type} (h : Handler S) (r : Request)
    (calls : list (time.Time * string)) (s : S) : list Outcome * S :=
  match calls with
  | [] => ([], s)
  | (now, item) :: calls' =>
      let '(out, s1, _) := evaluate h now item r s in
      let '(outs, s2) := evaluate_all h r calls' s1 in
      (out :: outs, s2)
  end.

(** The three things [Run] derives from the clock and the request. *)
Definition window_start_ms (now : time.Time) (r : Request) : Z :=
  time.UnixMilli (time.Add now (time.neg (Duration r))).

Definition probe_cmd (now : time.Time) (r : Request) : redis.Cmd :=
  redis.ZCount (Key r) (redis.Score (window_start_ms now r)) redis.PosInf.

Definition pipeline_cmds (now : time.Time) (item : string) (r : Request) : list redis.Cmd :=
  [ redis.ZRemRangeByScore (Key r) (redis.Score 0) (redis.Score (window_start_ms now r));
    redis.ZAdd (Key r) (time.UnixMilli now) item;
    redis.ZCount (Key r) redis.NegInf redis.PosInf ].

(** The guard of the fast-reject path, on the reply of the probe. *)
Definition fast_reject (r : Request) (probe : redis.IntCmd) : bool :=
  bool_decide (redis.err probe <> None) && bool_decide (Limit r <= uint64 (redis.val probe)).

(** The set a key holds once the pipeline went through on a healthy store. *)
Definition after_pipeline (now : time.Time) (item : string) (r : Request)
    (zs : gmap string Z) : gmap string Z :=
  <[item := time.UnixMilli now]>
    (store.outside (redis.Score 0) (redis.Score (window_start_ms now r)) zs).

(** The reply of the probe on a healthy store. *)
Definition probe_count (now : time.Time) (r : Request) (st : gmap string (gmap string Z)) : Z :=
  Z.of_nat (size (store.within (redis.Score (window_start_ms now r)) redis.PosInf
                    (store.zset_of st (Key r)))).

(** The store once the pipeline went through. *)
Definition after_evaluate (now : time.Time) (item : string) (r : Request)
    (st : gmap string (gmap string Z)) : gmap string (gmap string Z) :=
  (store.apply_all (pipeline_cmds now item r) st).2.

(** A store without the record of member [m] under [key]. *)
Definition without (key m : string) (st : gmap string (gmap string Z))
    : gmap string (gmap string Z) :=
  <[key := delete m (store.zset_of st key)]> st.


(** ** The paths of [Run]

    The round trips of one evaluation and its outcome, path by path: the
    fast reject, the four failures of the pipeline, and the two decisions. *)
Definition expires_at (now : time.Time) (r : Request) : time.Time :=
  time.Add now (Duration r).

Inductive run_spec (now : time.Time) (item : string) (r : Request)
    : list Event -> Outcome -> Prop :=
| run_fast_reject probe :
    fast_reject r probe = true ->
    run_spec now item r
      [Sent (probe_cmd now r) probe]
      (Some {| Result.State := Deny;
               Result.TotalRequests := uint64 (redis.val probe);
               Result.ExpiresAt := expires_at now r |}, None)
| run_exec_failed probe replies err :
    fast_reject r probe = false ->
    run_spec now item r
      [Sent (probe_cmd now r) probe; Executed (pipeline_cmds now item r) (Some err) replies]
      (None, Some (Wrapf err ("failed to execute sorted set pipeline for key: " +:+ Key r)))
| run_remove_failed probe replies err :
    fast_reject r probe = false ->
    redis.err (nth 0 replies redis.unanswered) = Some err ->
    run_spec now item r
      [Sent (probe_cmd now r) probe; Executed (pipeline_cmds now item r) None replies]
      (None, Some (Wrapf err ("failed to remove items from key " +:+ Key r)))
| run_add_failed probe replies err :
    fast_reject r probe = false ->
    redis.err (nth 0 replies redis.unanswered) = None ->
    redis.err (nth 1 replies redis.unanswered) = Some err ->
    run_spec now item r
      [Sent (probe_cmd now r) probe; Executed (pipeline_cmds now item r) None replies]
      (None, Some (Wrapf err ("failed to add item to key " +:+ Key r)))
| run_count_failed probe replies err :
    fast_reject r probe = false ->
    redis.err (nth 0 replies redis.unanswered) = None ->
    redis.err (nth 1 replies redis.unanswered) = None ->
    redis.err (nth 2 replies redis.unanswered) = Some err ->
    run_spec now item r
      [Sent (probe_cmd now r) probe; Executed (pipeline_cmds now item r) None replies]
      (None, Some (Wrapf err ("failed to count items for key " +:+ Key r)))
| run_decided probe replies :
    fast_reject r probe = false ->
    redis.err (nth 0 replies redis.unanswered) = None ->
    redis.err (nth 1 replies redis.unanswered) = None ->
    redis.err (nth 2 replies redis.unanswered) = None ->
    run_spec now item r
      [Sent (probe_cmd now r) probe; Executed (pipeline_cmds now item r) None replies]
      (Some {| Result.State :=
                 if bool_decide (Limit r < uint64 (redis.val (nth 2 replies redis.unanswered)))
                 then Deny else Allow;
               Result.TotalRequests := uint64 (redis.val (nth 2 replies redis.unanswered));
               Result.ExpiresAt := expires_at now r |}, None).

(** The replies of a trace are those of the client, and the state is
    threaded through the round trips. *)
Definition answered_by {S : Type} (h : Handler S) (s s' : S) (tr : list Event) : Prop :=
  match tr with
  | [Sent c probe] => on_send h c s = (probe, s')
  | [Sent c probe; Executed cs e replies] =>
      exists s1, on_send h c s = (probe, s1) /\ on_exec h cs s1 = (e, replies, s')
  | _ => False
  end.

(** The messages [Run] wraps the failures of the pipeline with; the key is
    appended to each. *)
Definition failure_prefixes : list string :=
  [ "failed to execute sorted set pipeline for key: ";
    "failed to remove items from key ";
    "failed to add item to key ";
    "failed to count items for key " ].

(** ** middleware.go *)

(** The parts of [net/http] the middleware touches.  A request is seen
    through [r.Header.Get]; a response writer holds the headers set so far,
    the status once written and the body. *)
Module http.

Definition StatusBadRequest : Z := 400.
Definition StatusTooManyRequests : Z := 429.
Definition StatusInternalServerError : Z := 500.

Record Request := { Get : string -> string }.

Record ResponseWriter := {
  Header : gmap string string;
  Status : option Z;
  Body : string
}.

Definition Set_ (name value : string) (w : ResponseWriter) : ResponseWriter :=
  {| Header := <[name := value]> (Header w); Status := Status w; Body := Body w |}.

(** Only the first status written counts. *)
Definition WriteHeader (status : Z) (w : ResponseWriter) : ResponseWriter :=
  {| Header := Header w;
     Status := Some (default status (Status w));
     Body := Body w |}.

(** Writing the body writes status 200 first when none was written. *)
Definition Write (body : string) (w : ResponseWriter) : ResponseWriter :=
  {| Header := Header w;
     Status := Some (default 200 (Status w));
     Body := Body w +:+ body |}.

End http.

Definition rateLimitingTotalRequests : string := "Rate-Limiting-Total-Requests".
Definition rateLimitingState : string := "Rate-Limiting-State".
Definition rateLimitingExpiresAt : string := "Rate-Limiting-Expires-At".

Definition stateStrings : gmap Z string := {[ Allow := "Allow"; Deny := "Deny" ]}.

(** [strconv.FormatUint(n, 10)] *)
Definition FormatUint (n : Z) : string := NilZero.string_of_uint (N.to_uint (Z.to_N n)).

Record httpHeaderExtractor := { headers : list string }.

Definition NewHTTPHeadersExtractor (hs : list string) : httpHeaderExtractor :=
  {| headers := hs |}.

Record RateLimiterConfig := {
  Extractor : http.Request -> string * option error;
  Strategy : Request -> Outcome;
  Expiration : time.Duration;
  MaxRequests : Z
}.

(** How the handler built by the middleware ends: it answered by itself, it
    handed the request and the writer to the wrapped handler, or it
    dereferenced a nil [*Result]. *)
Inductive Served :=
| Replied (w : http.ResponseWriter)
| CalledNext (w : http.ResponseWriter) (req : http.Request)
| Panicked.

Section Middleware.

(** [strings.TrimSpace] and [t.Format(time.RFC3339)] (which depends on the
    location of the time value) are taken as they come. *)
Variable TrimSpace : string -> string.
Variable FormatRFC3339 : time.Time -> string.

(** The loop of [Extract], with the values gathered so far. *)
Fixpoint extract_from (r : http.Request) (keys : list string) (values : list string)
    : string * option error :=
  match keys with
  | [] => (String.concat "-" values, None)
  | key :: keys' =>
      let value := TrimSpace (http.Get r key) in
      if decide (value = "") then
        ("", Some (ErrNew ("the header " +:+ key +:+ " must have a value set")))
      else extract_from r keys' (values ++ [value])
  end.

Definition Extract (h : httpHeaderExtractor) (r : http.Request) : string * option error :=
  extract_from r (headers h) [].

Definition writeResponse (writer : http.ResponseWriter) (status : Z) (msg : string)
    : http.ResponseWriter :=
  http.Write msg (http.WriteHeader status (http.Set_ "Content-Type" "text/plain" writer)).

Definition RateLimitingMiddleware (config : RateLimiterConfig)
    (res : http.ResponseWriter) (req : http.Request) : Served :=
  match Extractor config req with
  | (_, Some err) =>
      Replied (writeResponse res http.StatusBadRequest
                 ("failed to collect rate limiting key from request: " +:+ Error err))
  | (key, None) =>
      match Strategy config {| Key := key;
                               Limit := MaxRequests config;
                               Duration := Expiration config |} with
      | (_, Some err) =>
          Replied (writeResponse res http.StatusInternalServerError
                     ("failed to run rate limiting for request: " +:+ Error err))
      | (None, None) => Panicked
      | (Some result, None) =>
          let res := http.Set_ rateLimitingTotalRequests
                       (FormatUint (Result.TotalRequests result)) res in
          let res := http.Set_ rateLimitingState
                       (default "" (stateStrings !! Result.State result)) res in
          let res := http.Set_ rateLimitingExpiresAt
                       (FormatRFC3339 (Result.ExpiresAt result)) res in
          if decide (Result.State result = Deny) then
            Replied (writeResponse res http.StatusTooManyRequests
                       "you have sent too many requests to this service, slow down please :)")
          else CalledNext res req
      end
  end.

End Middleware.

Definition empty_writer : http.ResponseWriter :=
  {| http.Header := ∅; http.Status := None; http.Body := "" |}.

(** The strategy of a configuration wired to [counterStrategy.Run] over a
    client in state [s], for the evaluation made at [now] with identifier
    [item]. *)
Definition counterStrategy {S : Type} (h : Handler S) (s : S) (now : time.Time)
    (item : string) : Request -> Outcome :=
  fun r => (evaluate h now item r s).1.1.

(** ** Four sentences of the specification, as they are worded

    Each is a property of one evaluation (or of one request served); the
    code is checked against them below. *)

(** "A record is created only for admitted operations": an evaluation that
    returns Deny has sent no insertion under the caller's key. *)
Definition deny_inserts_nothing {S : Type} (h : Handler S) (now : time.Time)
    (item : string) (r : Request) (s : S) : Prop :=
  forall res err s' tr,
    evaluate h now item r s = ((Some res, err), s', tr) ->
    Result.State res = Deny ->
    forall score member, ~ In (redis.ZAdd (Key r) score member) (trace_cmds tr).

(** "The window excludes its start", for the probe: a record whose score is
    exactly [now - D] does not count. *)
Definition edge_excluded_by_probe (now : time.Time) (r : Request)
    (st : gmap string (gmap string Z)) (m : string) : Prop :=
  store.zset_of st (Key r) !! m = Some (time.UnixMilli (now - Duration r)) ->
  probe_count now r st = probe_count now r (without (Key r) m st).

(** "Key empty, limit zero, or window duration non-positive; fails fast, no
    store access": no round trip, no Result, an error. *)
Definition invalid (r : Request) : Prop :=
  Key r = "" \/ Limit r = 0 \/ Duration r <= 0.

Definition fails_fast {S : Type} (x : Outcome * S * list Event) : Prop :=
  x.2 = [] /\ x.1.1.1 = None /\ is_Some x.1.1.2.

(** "The wrapped handler is invoked only when the evaluation succeeds with
    state Allow". *)
Definition next_only_on_allow (served : Served) (out : Outcome) : Prop :=
  forall w req, served = CalledNext w req ->
  exists result, out = (Some result, None) /\ Result.State result = Allow.

(** ** Inputs of the examples *)

Definition at_ms (ms : Z) : time.Time := ms * time.Millisecond.

Definition req0 : Request := {| Key := "user"; Limit := 0; Duration := time.Second |}.
Definition req1 : Request := {| Key := "user"; Limit := 1; Duration := time.Second |}.
Definition req2 : Request := {| Key := "user"; Limit := 2; Duration := time.Second |}.
Definition bad_request : Request := {| Key := ""; Limit := 0; Duration := 0 |}.

(** One record, half a second old at 1500 ms, and one that is exactly one
    second old then. *)
Definition one_record : gmap string (gmap string Z) := {[ "user" := {[ "a" := 1000 ]} ]}.
Definition edge_record : gmap string (gmap string Z) := {[ "user" := {[ "a" := 500 ]} ]}.

Definition calls3 : list (time.Time * string) :=
  [ (at_ms 1000, "a"); (at_ms 1100, "b"); (at_ms 1200, "c") ].

Definition connection_reset : error := ErrNew "connection reset".

(** A strategy of another kind, whose state is neither of the named ones,
    and a configuration that uses it. *)
Definition odd_strategy : Request -> Outcome :=
  fun _ => (Some {| Result.State := 2; Result.TotalRequests := 0; Result.ExpiresAt := 0 |}, None).

Definition odd_config : RateLimiterConfig := {|
  Extractor := fun _ => ("user", None);
  Strategy := odd_strategy;
  Expiration := time.Second;
  MaxRequests := 1
|}.

(** The counter strategy over the healthy store that holds [one_record],
    evaluated at 1500 ms. *)
Definition counter_config : RateLimiterConfig := {|
  Extractor := fun _ => ("user", None);
  Strategy := counterStrategy healthy one_record (at_ms 1500) "b";
  Expiration := time.Second;
  MaxRequests := 1
|}.

Definition any_request : http.Request := {| http.Get := fun _ => "" |}.

(** ** Further notions *)

(** The key a command addresses. *)
Definition cmd_key (c : redis.Cmd) : string :=
  match c with
  | redis.ZCount key _ _ | redis.ZRemRangeByScore key _ _ | redis.ZAdd key _ _ => key
  end.

(** The header has a value once the white space around it is trimmed. *)
Definition has_value (TrimSpace : string -> string) (req : http.Request) (key : string) : Prop :=
  TrimSpace (http.Get req key) <> "".

(** The values of the headers, trimmed, in the order of the header names. *)
Definition header_values (TrimSpace : string -> string) (req : http.Request)
    (keys : list string) : list string :=
  map (fun key => TrimSpace (http.Get req key)) keys.


(** A request that carries the given headers and no other. *)
Definition request_with (hs : list (string * string)) : http.Request :=
  {| http.Get := fun key => default "" (list_to_map (M := gmap string string) hs !! key) |}.

(** More inputs of the examples. *)
Definition req_no_window : Request := {| Key := "user"; Limit := 1; Duration := 0 |}.

Definition three_records : gmap string (gmap string Z) :=
  {[ "user" := {[ "a" := 1498; "b" := 1499; "c" := 1500 ]} ]}.


(** Among the calls, the number of those whose record is later than the
    start of the window of an evaluation made at [t]; and the same for the
    records of a set. *)
Definition still_in_window (r : Request) (t : time.Time)
    (calls : list (time.Time * string)) : nat :=
  length (filter (fun c => window_start_ms t r < time.UnixMilli c.1) calls).


Definition calls4 : list (time.Time * string) :=
  [ (at_ms 1000, "a"); (at_ms 1100, "b"); (at_ms 1900, "c"); (at_ms 2050, "d") ].

(** * Properties *)

(** ** Integers and times *)

Lemma uint64_small (z : Z) : 0 <= z < 2 ^ 64 -> uint64 z = z.
Proof. intros Hz. unfold uint64. by apply Z.mod_small. Qed.

Lemma uint64_range (z : Z) : is_uint64 (uint64 z).
Proof. unfold is_uint64, uint64. apply Z.mod_pos_bound. lia. Qed.

Lemma neg_exact (d : time.Duration) : - 2 ^ 63 < d < 2 ^ 63 -> time.neg d = - d.
Proof.
  intros Hd. unfold time.neg, wrap_int64.
  rewrite Z.mod_small; lia.
Qed.

Lemma window_start_ms_exact (now : time.Time) (r : Request) :
  - 2 ^ 63 < Duration r < 2 ^ 63 ->
  window_start_ms now r = time.UnixMilli (now - Duration r).
Proof.
  intros Hd. unfold window_start_ms, time.Add.
  rewrite neg_exact by done. reflexivity.
Qed.

(** ** The store *)

Lemma in_range_full (s : Z) : store.in_range redis.NegInf redis.PosInf s = true.
Proof. done. Qed.

Lemma within_full (zs : gmap string Z) : store.within redis.NegInf redis.PosInf zs = zs.
Proof. unfold store.within. by apply map_filter_id. Qed.

Lemma in_range_scores (lo hi s : Z) :
  store.in_range (redis.Score lo) (redis.Score hi) s = true <-> lo <= s <= hi.
Proof. unfold store.in_range; simpl. rewrite andb_true_iff, !Z.leb_le. done. Qed.

Lemma in_range_from (lo s : Z) :
  store.in_range (redis.Score lo) redis.PosInf s = true <-> lo <= s.
Proof. unfold store.in_range; simpl. rewrite andb_true_r, Z.leb_le. done. Qed.

Lemma zset_of_insert (st : gmap string (gmap string Z)) (key : string) (zs : gmap string Z) :
  store.zset_of (<[key := zs]> st) key = zs.
Proof. unfold store.zset_of. by rewrite lookup_insert_eq. Qed.

Lemma zset_of_insert_ne (st : gmap string (gmap string Z)) (key key' : string)
    (zs : gmap string Z) :
  key <> key' -> store.zset_of (<[key := zs]> st) key' = store.zset_of st key'.
Proof. intros Hne. unfold store.zset_of. by rewrite lookup_insert_ne. Qed.

Lemma zset_of_put (st : gmap string (gmap string Z)) (key : string) (zs : gmap string Z) :
  store.zset_of (store.put st key zs) key = zs.
Proof.
  unfold store.put. case_decide as Hzs.
  - unfold store.zset_of. by rewrite lookup_delete_eq.
  - apply zset_of_insert.
Qed.

Lemma zset_of_put_ne (st : gmap string (gmap string Z)) (key key' : string)
    (zs : gmap string Z) :
  key <> key' -> store.zset_of (store.put st key zs) key' = store.zset_of st key'.
Proof.
  intros Hne. unfold store.put. case_decide.
  - unfold store.zset_of. by rewrite lookup_delete_ne.
  - by apply zset_of_insert_ne.
Qed.



Lemma lookup_within (lo hi : redis.bound) (zs : gmap string Z) (m : string) (s : Z) :
  store.within lo hi zs !! m = Some s <-> zs !! m = Some s /\ store.in_range lo hi s = true.
Proof. unfold store.within. by rewrite map_lookup_filter_Some. Qed.

(** ** One evaluation, against any client *)

Lemma evaluate_spec {S : Type} (h : Handler S) (now : time.Time) (item : string)
    (r : Request) (s : S) :
  run_spec now item r (evaluate h now item r s).2 (evaluate h now item r s).1.1.
Proof.
  unfold evaluate, Run. cbn [interp].
  destruct (on_send h _ s) as [probe s1] eqn:Hsend.
  fold (window_start_ms now r). fold (probe_cmd now r).
  fold (fast_reject r probe).
  destruct (fast_reject r probe) eqn:Hguard.
  { cbn [interp fst snd]. by apply run_fast_reject. }
  cbn [interp].
  fold (pipeline_cmds now item r).
  destruct (on_exec h _ s1) as [[e replies] s2] eqn:Hexec.
  destruct e as [err|]; [cbn; by apply run_exec_failed|].
  destruct (redis.err (nth 0 replies redis.unanswered)) as [err|] eqn:H0;
    [cbn; by apply run_remove_failed|].
  destruct (redis.err (nth 1 replies redis.unanswered)) as [err|] eqn:H1;
    [cbn; by apply run_add_failed|].
  destruct (redis.err (nth 2 replies redis.unanswered)) as [err|] eqn:H2;
    [cbn; by apply run_count_failed|].
  pose proof (run_decided now item r probe replies Hguard H0 H1 H2) as Hd.
  case_bool_decide; cbn; exact Hd.
Qed.

(** The replies of the trace are the client's. *)
(** The replies of the trace are the client's, and its state is threaded
    through the round trips. *)
Lemma evaluate_answered {S : Type} (h : Handler S) (now : time.Time) (item : string)
    (r : Request) (s : S) :
  answered_by h s (evaluate h now item r s).1.2 (evaluate h now item r s).2.
Proof.
  unfold evaluate, Run. cbn [interp].
  destruct (on_send h _ s) as [probe s1] eqn:Hsend.
  destruct (_ && _); [by cbn|].
  cbn [interp].
  destruct (on_exec h _ s1) as [[e replies] s2] eqn:Hexec.
  assert (answered_by h s s2
    [Sent (probe_cmd now r) probe; Executed (pipeline_cmds now item r) e replies]) as Hans.
  { exists s1. split; [exact Hsend|exact Hexec]. }
  destruct e as [err|]; [exact Hans|].
  repeat (match goal with |- context [match redis.err ?x with _ => _ end] =>
            destruct (redis.err x) end; [exact Hans|]).
  case_bool_decide; exact Hans.
Qed.

Lemma evaluate_inv {S : Type} (h : Handler S) now item r (s s' : S) out tr :
  evaluate h now item r s = (out, s', tr) ->
  run_spec now item r tr out /\ answered_by h s s' tr.
Proof.
  intros Heq. pose proof (evaluate_spec h now item r s) as Hspec.
  pose proof (evaluate_answered h now item r s) as Hans.
  rewrite Heq in Hspec, Hans. done.
Qed.

Lemma reply_error_in_trace (replies : list redis.IntCmd) (i : nat) (e : error) :
  redis.err (nth i replies redis.unanswered) = Some e ->
  In e (flat_map (fun r => option_list (redis.err r)) replies).
Proof.
  intros He. destruct (nth_in_or_default i replies redis.unanswered) as [Hin|Hd].
  - apply in_flat_map. eexists. split; [exact Hin|]. rewrite He. by left.
  - rewrite Hd in He. done.
Qed.

(** Every error [Run] returns comes without a Result, and wraps an error the
    pipeline reported together with the key. *)
Lemma run_spec_error now item r tr res err :
  run_spec now item r tr (res, Some err) ->
  res = None
  /\ exists cause prefix,
       err = Wrapf cause (prefix +:+ Key r) /\ In cause (store_errors (tail tr)).
Proof.
  intros Hspec. inversion Hspec; subst; (split; [done|]); eexists _, _;
    (split; [reflexivity|]); cbn; rewrite ?app_nil_r.
  - by left.
  - by eapply reply_error_in_trace.
  - by eapply reply_error_in_trace.
  - by eapply reply_error_in_trace.
Qed.

(** [Run] only ever reports one of the two named states. *)
Lemma run_state {S : Type} (h : Handler S) now item r (s s' : S) res err tr :
  evaluate h now item r s = ((Some res, err), s', tr) ->
  Result.State res = Deny \/ Result.State res = Allow.
Proof.
  intros Heq. apply evaluate_inv in Heq as [Hspec _].
  inversion Hspec; subst; cbn; [by left|].
  case_bool_decide; [by left|by right].
Qed.

(** For any client, a decision taken on the write path follows the count the
    pipeline replied. *)
Lemma decision_follows_count_reply {S : Type} (h : Handler S) now item r (s s' : S)
    res err probe_ev cs e replies :
  evaluate h now item r s = ((Some res, err), s', [probe_ev; Executed cs e replies]) ->
  Result.TotalRequests res = uint64 (redis.val (nth 2 replies redis.unanswered))
  /\ (Result.State res = Deny <-> Limit r < Result.TotalRequests res)
  /\ (Result.State res = Allow <-> Result.TotalRequests res <= Limit r).
Proof.
  intros Heq. apply evaluate_inv in Heq as [Hspec _].
  inversion Hspec; subst. cbn.
  case_bool_decide; (split; [done|]); split; split; intros; try done; lia.
Qed.

(** ** One evaluation, against the healthy store *)

Lemma zset_of_after_evaluate now item r st :
  store.zset_of (after_evaluate now item r st) (Key r)
  = after_pipeline now item r (store.zset_of st (Key r)).
Proof.
  unfold after_evaluate, after_pipeline. cbn.
  by rewrite zset_of_insert, zset_of_put.
Qed.

Lemma zset_of_after_evaluate_ne now item r st key :
  Key r <> key ->
  store.zset_of (after_evaluate now item r st) key = store.zset_of st key.
Proof.
  intros Hne. unfold after_evaluate. cbn.
  by rewrite zset_of_insert_ne, zset_of_put_ne.
Qed.

(** On a healthy store the probe never fails, so the guard of the fast reject
    never holds: every evaluation goes through the pipeline, and the count it
    decides on is the size of the set after the insertion. *)
Lemma healthy_send c st :
  on_send healthy c st
  = ({| redis.val := (store.apply c st).1; redis.err := None |}, (store.apply c st).2).
Proof. cbn. by destruct (store.apply c st). Qed.

Lemma healthy_exec cs st :
  on_exec healthy cs st = (None, (store.apply_all cs st).1, (store.apply_all cs st).2).
Proof. cbn. by destruct (store.apply_all cs st). Qed.

Lemma apply_all_errors cs st :
  Forall (fun reply => redis.err reply = None) (store.apply_all cs st).1.
Proof.
  revert st. induction cs as [|c cs IH]; intros st; cbn; [constructor|].
  destruct (store.apply c st) as [v st1]. specialize (IH st1).
  destruct (store.apply_all cs st1) as [rs st2]. by constructor.
Qed.

Lemma apply_all_pipeline_count now item r st :
  redis.val (nth 2 (store.apply_all (pipeline_cmds now item r) st).1 redis.unanswered)
  = Z.of_nat (size (store.zset_of (after_evaluate now item r st) (Key r))).
Proof.
  unfold after_evaluate. cbn. by rewrite within_full.
Qed.

Lemma evaluate_healthy now item r st :
  exists tr,
    evaluate healthy now item r st =
      ((Some {| Result.State :=
                  if bool_decide (Limit r <
                       uint64 (Z.of_nat (size (store.zset_of (after_evaluate now item r st) (Key r)))))
                  then Deny else Allow;
                Result.TotalRequests :=
                  uint64 (Z.of_nat (size (store.zset_of (after_evaluate now item r st) (Key r))));
                Result.ExpiresAt := expires_at now r |}, None),
       after_evaluate now item r st,
       Sent (probe_cmd now r) {| redis.val := probe_count now r st; redis.err := None |}
         :: tr)
    /\ trace_cmds tr = pipeline_cmds now item r.
Proof.
  destruct (evaluate healthy now item r st) as [[out st'] tr] eqn:Heq.
  apply evaluate_inv in Heq as [Hspec Hans].
  inversion Hspec as [probe Hg|probe replies err Hg|probe replies err Hg H0
                     |probe replies err Hg H0 H1|probe replies err Hg H0 H1 H2
                     |probe replies Hg H0 H1 H2]; subst;
    unfold answered_by in Hans; try destruct Hans as (s1 & Hsend & Hexec);
    rewrite ?healthy_send, ?healthy_exec in *; simplify_eq.
  change (store.apply (probe_cmd now r) st).2 with st.
  rewrite apply_all_pipeline_count.
  eexists. split; reflexivity.
Qed.

Lemma zset_of_without key m st :
  store.zset_of (without key m st) key = delete m (store.zset_of st key).
Proof. apply zset_of_insert. Qed.

Lemma after_pipeline_without now item r (zs : gmap string Z) m s :
  zs !! m = Some s ->
  store.in_range (redis.Score 0) (redis.Score (window_start_ms now r)) s = true ->
  after_pipeline now item r (delete m zs) = after_pipeline now item r zs.
Proof.
  intros Hm Hin. unfold after_pipeline, store.outside.
  rewrite map_filter_delete. rewrite delete_id; [done|].
  apply map_lookup_filter_None. right. intros s' Hs'. simplify_eq. cbn.
  by rewrite Hin.
Qed.

(** ** Evaluations in sequence on the healthy store *)



(** * The claims *)

(** ** The fast-reject path (C1, C2) *)

(** A probe that succeeds never takes the fast-reject path, whatever count
    it reports: the guard asks for an error. *)
Lemma successful_probe_is_never_rejected (r : Request) (probe : redis.IntCmd) :
  redis.err probe = None -> fast_reject r probe = false.
Proof. intros Herr. unfold fast_reject. by rewrite Herr. Qed.

(** So an evaluation whose probe succeeded went on to the pipeline. *)
Lemma successful_probe_reaches_pipeline {S : Type} (h : Handler S) now item r
    (s s' : S) out c probe tr :
  evaluate h now item r s = (out, s', Sent c probe :: tr) ->
  redis.err probe = None ->
  exists e replies, tr = [Executed (pipeline_cmds now item r) e replies].
Proof.
  intros Heq Herr. apply evaluate_inv in Heq as [Hspec _].
  inversion Hspec as [p Hg| | | | |]; subst; eauto.
  by rewrite successful_probe_is_never_rejected in Hg.
Qed.

(** C1, at the failing input.  One record is in the window and the limit is
    one, so the probe succeeds with a count (1) that is at least the limit.
    The claim asks for a Deny carrying that count and for no write.  [Run]
    goes through the pipeline instead: it prunes, inserts the record ["b"],
    and returns Deny with the count taken after the insertion (2). *)
Theorem successful_probe_over_limit_still_writes :
  evaluate healthy (at_ms 1500) "b" req1 one_record =
    ((Some {| Result.State := Deny;
              Result.TotalRequests := 2;
              Result.ExpiresAt := at_ms 2500 |}, None),
     {[ "user" := {[ "a" := 1000; "b" := 1500 ]} ]},
     [ Sent (redis.ZCount "user" (redis.Score 500) redis.PosInf)
         {| redis.val := 1; redis.err := None |};
       Executed
         [ redis.ZRemRangeByScore "user" (redis.Score 0) (redis.Score 500);
           redis.ZAdd "user" 1500 "b";
           redis.ZCount "user" redis.NegInf redis.PosInf ]
         None
         [ {| redis.val := 0; redis.err := None |};
           {| redis.val := 1; redis.err := None |};
           {| redis.val := 2; redis.err := None |} ] ])
  /\ writes (evaluate healthy (at_ms 1500) "b" req1 one_record).2 =
       [ redis.ZRemRangeByScore "user" (redis.Score 0) (redis.Score 500);
         redis.ZAdd "user" 1500 "b" ].
Proof. split; vm_compute; reflexivity. Qed.

(** C2, at the failing inputs.  The first round trip (the probe) fails with
    an error and the second goes through.  With limit 1, [Run] returns an
    Allow and no error; with limit 0, the count 0 that comes with the failed
    probe passes the guard and [Run] returns a Deny and no error, after that
    single round trip.  In both, an error of the store is not surfaced. *)
Theorem probe_error_is_swallowed :
  evaluate flaky (at_ms 1500) "b" req1 (∅, [Some connection_reset]) =
    ((Some {| Result.State := Allow;
              Result.TotalRequests := 1;
              Result.ExpiresAt := at_ms 2500 |}, None),
     ({[ "user" := {[ "b" := 1500 ]} ]}, []),
     [ Sent (redis.ZCount "user" (redis.Score 500) redis.PosInf)
         {| redis.val := 0; redis.err := Some connection_reset |};
       Executed
         [ redis.ZRemRangeByScore "user" (redis.Score 0) (redis.Score 500);
           redis.ZAdd "user" 1500 "b";
           redis.ZCount "user" redis.NegInf redis.PosInf ]
         None
         [ {| redis.val := 0; redis.err := None |};
           {| redis.val := 1; redis.err := None |};
           {| redis.val := 1; redis.err := None |} ] ])
  /\ store_errors (evaluate flaky (at_ms 1500) "b" req1 (∅, [Some connection_reset])).2
     = [connection_reset]
  /\ evaluate flaky (at_ms 1500) "b" req0 (∅, [Some connection_reset]) =
    ((Some {| Result.State := Deny;
              Result.TotalRequests := 0;
              Result.ExpiresAt := at_ms 2500 |}, None),
     (∅, []),
     [ Sent (redis.ZCount "user" (redis.Score 500) redis.PosInf)
         {| redis.val := 0; redis.err := Some connection_reset |} ]).
Proof. repeat split; vm_compute; reflexivity. Qed.

(** ** The decision on the write path (C3) *)



(** The same sequence, evaluated: Allow, Allow, Deny. *)
Example three_calls_under_limit_two :
  (evaluate_all healthy req2 calls3 ∅).1 =
    [ (Some {| Result.State := Allow; Result.TotalRequests := 1;
               Result.ExpiresAt := at_ms 2000 |}, None);
      (Some {| Result.State := Allow; Result.TotalRequests := 2;
               Result.ExpiresAt := at_ms 2100 |}, None);
      (Some {| Result.State := Deny; Result.TotalRequests := 3;
               Result.ExpiresAt := at_ms 2200 |}, None) ].
Proof. vm_compute. reflexivity. Qed.

(** ** Records and denials (C4) *)

(** C4, counterexample.  Under limit 1, another process inserts a record
    between the probe of this evaluation (which counted 0) and its
    pipeline.  The pipeline inserts the record ["b"], counts 2 and [Run]
    returns Deny: a denied operation has created a record. *)
Lemma deny_inserts_nothing_fails :
  ~ deny_inserts_nothing shared (at_ms 1500) "b" req1
      (∅, [[]; [redis.ZAdd "user" 1400 "other"]]).
Proof.
  intros Hclaim.
  eapply (Hclaim _ _ _ _ eq_refl eq_refl 1500 "b").
  vm_compute. auto.
Qed.

(** C4, amended.  An evaluation that returns Deny either took the
    fast-reject path, and then sent no write at all, or took the write path,
    and then its pipeline carried the insertion of its own record and the
    count it reports, taken after that insertion, exceeds the limit. *)
Theorem deny_without_insert_only_on_fast_reject {S : Type} (h : Handler S)
    (now : time.Time) (item : string) (r : Request) (s s' : S)
    (res : Result.t) (err : option error) (tr : list Event) :
  evaluate h now item r s = ((Some res, err), s', tr) ->
  Result.State res = Deny ->
  ((exists probe, tr = [Sent (probe_cmd now r) probe] /\ fast_reject r probe = true)
   /\ writes tr = [])
  \/ ((exists probe replies,
         tr = [Sent (probe_cmd now r) probe;
               Executed (pipeline_cmds now item r) None replies])
      /\ In (redis.ZAdd (Key r) (time.UnixMilli now) item) (writes tr)
      /\ Limit r < Result.TotalRequests res).
Proof.
  intros Heq Hdeny. apply evaluate_inv in Heq as [Hspec _].
  inversion Hspec as [probe Hg| | | | |probe replies Hg H0 H1 H2]; subst.
  - left. split; [by exists probe|done].
  - right. split; [by exists probe, replies|].
    split; [cbn; auto|].
    cbn in Hdeny |- *. by case_bool_decide.
Qed.

(** The evaluation of C1: denied on the write path, with its record
    inserted. *)
Lemma deny_without_insert_only_on_fast_reject_witness :
  ((exists probe,
      (evaluate healthy (at_ms 1500) "b" req1 one_record).2
      = [Sent (probe_cmd (at_ms 1500) req1) probe]
      /\ fast_reject req1 probe = true)
   /\ writes (evaluate healthy (at_ms 1500) "b" req1 one_record).2 = [])
  \/ ((exists probe replies,
         (evaluate healthy (at_ms 1500) "b" req1 one_record).2
         = [Sent (probe_cmd (at_ms 1500) req1) probe;
            Executed (pipeline_cmds (at_ms 1500) "b" req1) None replies])
      /\ In (redis.ZAdd (Key req1) (time.UnixMilli (at_ms 1500)) "b")
            (writes (evaluate healthy (at_ms 1500) "b" req1 one_record).2)
      /\ Limit req1 < 2).
Proof.
  apply (deny_without_insert_only_on_fast_reject healthy (at_ms 1500) "b" req1
           one_record (after_evaluate (at_ms 1500) "b" req1 one_record)
           {| Result.State := Deny; Result.TotalRequests := 2;
              Result.ExpiresAt := at_ms 2500 |} None).
  - vm_compute. reflexivity.
  - reflexivity.
Defined.

(** On the healthy store the record of a denied evaluation is in the store
    afterwards. *)
Lemma healthy_deny_keeps_record now item r st res err st' tr :
  evaluate healthy now item r st = ((Some res, err), st', tr) ->
  Result.State res = Deny ->
  store.zset_of st' (Key r) !! item = Some (time.UnixMilli now).
Proof.
  intros Heq _. destruct (evaluate_healthy now item r st) as (tr' & Heval & _).
  rewrite Heval in Heq. simplify_eq.
  rewrite zset_of_after_evaluate. unfold after_pipeline. by rewrite lookup_insert_eq.
Qed.

(** ** The start of the window (C5) *)

(** C5, counterexample.  At 1500 ms with a window of one second, the record
    whose score is exactly 500 is counted by the probe: the probe replies 1
    with it and 0 without it. *)
Lemma edge_excluded_by_probe_fails :
  ~ edge_excluded_by_probe (at_ms 1500) req1 edge_record "a".
Proof. intros Hclaim. specialize (Hclaim eq_refl). vm_compute in Hclaim. done. Qed.

(** C5, amended.  For a record whose score is exactly [now - D] in
    milliseconds: the probe, whose range starts at that score and includes
    it, counts the record; the pipeline, when [now - D] is not before the
    epoch, prunes it before counting, so that the outcome of the evaluation
    and the set left under the key are those of a store that never held the
    record. *)
Theorem window_edge_counted_by_probe_pruned_by_pipeline
    (now : time.Time) (item : string) (r : Request)
    (st : gmap string (gmap string Z)) (m : string) :
  - 2 ^ 63 < Duration r < 2 ^ 63 ->
  store.zset_of st (Key r) !! m = Some (time.UnixMilli (now - Duration r)) ->
  probe_count now r st = probe_count now r (without (Key r) m st) + 1
  /\ (0 <= time.UnixMilli (now - Duration r) ->
      (evaluate healthy now item r st).1.1
        = (evaluate healthy now item r (without (Key r) m st)).1.1
      /\ store.zset_of (after_evaluate now item r st) (Key r)
         = store.zset_of (after_evaluate now item r (without (Key r) m st)) (Key r)
      /\ (m <> item -> store.zset_of (after_evaluate now item r st) (Key r) !! m = None)).
Proof.
  intros Hd Hm. rewrite <- window_start_ms_exact in * by done. split.
  - unfold probe_count. rewrite zset_of_without.
    unfold store.within. rewrite map_filter_delete.
    assert (Hin : is_Some (filter (fun ms : string * Z =>
         store.in_range (redis.Score (window_start_ms now r)) redis.PosInf ms.2 = true)
         (store.zset_of st (Key r)) !! m)).
    { exists (window_start_ms now r). apply map_lookup_filter_Some.
      split; [done|]. cbn. apply in_range_from. lia. }
    rewrite map_size_delete_Some by done.
    pose proof (map_size_ne_0_lookup_2 _ _ Hin). lia.
  - intros Hpos.
    assert (Hsame : store.zset_of (after_evaluate now item r st) (Key r)
                    = store.zset_of (after_evaluate now item r (without (Key r) m st)) (Key r)).
    { rewrite !zset_of_after_evaluate, zset_of_without.
      symmetry. eapply after_pipeline_without; [exact Hm|].
      apply in_range_scores. lia. }
    split; [|split; [done|]].
    + destruct (evaluate_healthy now item r st) as (tr1 & -> & _).
      destruct (evaluate_healthy now item r (without (Key r) m st)) as (tr2 & -> & _).
      cbn [fst]. by rewrite Hsame.
    + intros Hne. rewrite zset_of_after_evaluate. unfold after_pipeline.
      rewrite lookup_insert_ne by done.
      apply map_lookup_filter_None. right. intros s' Hs'. simplify_eq. cbn.
      rewrite (proj2 (in_range_scores 0 _ _)); [done|lia].
Qed.

Lemma window_edge_counted_by_probe_pruned_by_pipeline_witness :
  probe_count (at_ms 1500) req1 edge_record
  = probe_count (at_ms 1500) req1 (without "user" "a" edge_record) + 1
  /\ (0 <= time.UnixMilli (at_ms 1500 - Duration req1) ->
      (evaluate healthy (at_ms 1500) "b" req1 edge_record).1.1
        = (evaluate healthy (at_ms 1500) "b" req1 (without "user" "a" edge_record)).1.1
      /\ store.zset_of (after_evaluate (at_ms 1500) "b" req1 edge_record) "user"
         = store.zset_of (after_evaluate (at_ms 1500) "b" req1
                            (without "user" "a" edge_record)) "user"
      /\ ("a" <> "b" ->
          store.zset_of (after_evaluate (at_ms 1500) "b" req1 edge_record) "user"
            !! "a" = None)).
Proof.
  apply (window_edge_counted_by_probe_pruned_by_pipeline (at_ms 1500) "b" req1 edge_record "a").
  - split; reflexivity.
  - reflexivity.
Defined.

(** Before the epoch the prune, whose range starts at score 0, removes
    nothing: a record at the start of the window stays and is counted. *)
Example edge_record_before_epoch_is_kept :
  evaluate healthy (at_ms 500) "b" req1 {[ "user" := {[ "a" := -500 ]} ]} =
    ((Some {| Result.State := Deny; Result.TotalRequests := 2;
              Result.ExpiresAt := at_ms 1500 |}, None),
     {[ "user" := {[ "a" := -500; "b" := 500 ]} ]},
     (evaluate healthy (at_ms 500) "b" req1 {[ "user" := {[ "a" := -500 ]} ]}).2).
Proof. vm_compute. reflexivity. Qed.

(** ** Requests that the specification calls invalid (C6) *)

(** C6, counterexample.  A request with an empty key, a zero limit and a
    zero duration is evaluated like any other: both round trips are made, a
    record is inserted under the empty key, and a Result comes back. *)
Lemma invalid_request_is_evaluated :
  invalid bad_request
  /\ ~ fails_fast (evaluate healthy (at_ms 1500) "b" bad_request ∅)
  /\ evaluate healthy (at_ms 1500) "b" bad_request ∅ =
       ((Some {| Result.State := Deny;
                 Result.TotalRequests := 1;
                 Result.ExpiresAt := at_ms 1500 |}, None),
        {[ "" := {[ "b" := 1500 ]} ]},
        [ Sent (redis.ZCount "" (redis.Score 1500) redis.PosInf)
            {| redis.val := 0; redis.err := None |};
          Executed
            [ redis.ZRemRangeByScore "" (redis.Score 0) (redis.Score 1500);
              redis.ZAdd "" 1500 "b";
              redis.ZCount "" redis.NegInf redis.PosInf ]
            None
            [ {| redis.val := 0; redis.err := None |};
              {| redis.val := 1; redis.err := None |};
              {| redis.val := 1; redis.err := None |} ] ]).
Proof.
  split; [by left|]. split; [|vm_compute; reflexivity].
  intros (Htr & _). vm_compute in Htr. done.
Qed.

(** C6, amended.  [Run] does not validate the request.  Whatever the
    request, its first action is to send the probe to the store; and every
    error it returns comes without a Result and wraps, with the key, an
    error that the pipeline reported: there is no error for an invalid
    request. *)
Theorem run_does_not_validate {S : Type} (h : Handler S) (now : time.Time)
    (item : string) (r : Request) (s : S) :
  exists probe s1 tr,
    on_send h (probe_cmd now r) s = (probe, s1)
    /\ (evaluate h now item r s).2 = Sent (probe_cmd now r) probe :: tr
    /\ forall res err,
         (evaluate h now item r s).1.1 = (res, Some err) ->
         res = None
         /\ exists cause prefix,
              err = Wrapf cause (prefix +:+ Key r) /\ In cause (store_errors tr).
Proof.
  destruct (evaluate h now item r s) as [[out s'] tr0] eqn:Heq.
  apply evaluate_inv in Heq as [Hspec Hans].
  assert (exists probe s1 tr, on_send h (probe_cmd now r) s = (probe, s1)
                              /\ tr0 = Sent (probe_cmd now r) probe :: tr)
    as (probe & s1 & tr & Hsend & ->).
  { inversion Hspec; subst; cbn in Hans;
      try destruct Hans as (s1 & Hsend & _); eauto 10. }
  exists probe, s1, tr. split; [done|]. split; [done|].
  intros res err Hout. cbn in Hout. subst out.
  by apply run_spec_error in Hspec.
Qed.

(** The invalid request against a store whose pipeline fails. *)
Lemma run_does_not_validate_witness :
  exists probe s1 tr,
    on_send flaky (probe_cmd (at_ms 1500) bad_request) (∅, [None; Some connection_reset])
    = (probe, s1)
    /\ (evaluate flaky (at_ms 1500) "b" bad_request (∅, [None; Some connection_reset])).2
       = Sent (probe_cmd (at_ms 1500) bad_request) probe :: tr
    /\ forall res err,
         (evaluate flaky (at_ms 1500) "b" bad_request
            (∅, [None; Some connection_reset])).1.1 = (res, Some err) ->
         res = None
         /\ exists cause prefix,
              err = Wrapf cause (prefix +:+ Key bad_request) /\ In cause (store_errors tr).
Proof.
  exact (run_does_not_validate flaky (at_ms 1500) "b" bad_request
           (∅, [None; Some connection_reset])).
Defined.

(** ** Failures of the pipeline (C7) *)

(** C7.  On the write path, when [Exec] fails or the prune, the insertion
    or the count reports an error, [Run] returns no Result and an error that
    wraps the cause (the first of these errors, in that order) under a
    message that ends with the key. *)
Theorem pipeline_failure_is_wrapped {S : Type} (h : Handler S) (now : time.Time)
    (item : string) (r : Request) (s s' : S) (out : Outcome)
    (probe_ev : Event) (cs : list redis.Cmd) (e : option error)
    (replies : list redis.IntCmd) :
  evaluate h now item r s = (out, s', [probe_ev; Executed cs e replies]) ->
  e <> None
  \/ redis.err (nth 0 replies redis.unanswered) <> None
  \/ redis.err (nth 1 replies redis.unanswered) <> None
  \/ redis.err (nth 2 replies redis.unanswered) <> None ->
  exists cause prefix,
    out = (None, Some (Wrapf cause (prefix +:+ Key r)))
    /\ In prefix failure_prefixes
    /\ e ∪ redis.err (nth 0 replies redis.unanswered)
         ∪ redis.err (nth 1 replies redis.unanswered)
         ∪ redis.err (nth 2 replies redis.unanswered) = Some cause.
Proof.
  intros Heq Hfail. apply evaluate_inv in Heq as [Hspec _].
  inversion Hspec as [|probe rs err Hg|probe rs err Hg H0|probe rs err Hg H0 H1
                     |probe rs err Hg H0 H1 H2|probe rs Hg H0 H1 H2]; subst.
  - eexists _, _. split; [reflexivity|]. split; [cbn; auto|].
    by destruct (redis.err (nth 0 replies _)), (redis.err (nth 1 replies _)),
         (redis.err (nth 2 replies _)).
  - eexists _, _. split; [reflexivity|]. split; [cbn; auto|]. rewrite H0.
    by destruct (redis.err (nth 1 replies _)), (redis.err (nth 2 replies _)).
  - eexists _, _. split; [reflexivity|]. split; [cbn; auto|]. rewrite H0, H1.
    by destruct (redis.err (nth 2 replies _)).
  - eexists _, _. split; [reflexivity|]. split; [cbn; auto 6|]. by rewrite H0, H1, H2.
  - destruct Hfail as [?|[?|[?|?]]]; congruence.
Qed.

(** The probe goes through and the pipeline fails with a reset
    connection. *)
Lemma pipeline_failure_is_wrapped_witness :
  exists cause prefix,
    ((None, Some (Wrapf connection_reset
                    ("failed to execute sorted set pipeline for key: " +:+ "user"))) : Outcome)
    = (None, Some (Wrapf cause (prefix +:+ Key req1)))
    /\ In prefix failure_prefixes
    /\ Some connection_reset
         ∪ redis.err (nth 0 (map (fun _ => failed_with connection_reset)
                               (pipeline_cmds (at_ms 1500) "b" req1)) redis.unanswered)
         ∪ redis.err (nth 1 (map (fun _ => failed_with connection_reset)
                               (pipeline_cmds (at_ms 1500) "b" req1)) redis.unanswered)
         ∪ redis.err (nth 2 (map (fun _ => failed_with connection_reset)
                               (pipeline_cmds (at_ms 1500) "b" req1)) redis.unanswered)
       = Some cause.
Proof.
  apply (pipeline_failure_is_wrapped flaky (at_ms 1500) "b" req1
           (∅, [None; Some connection_reset]) (∅, [])
           _ (Sent (probe_cmd (at_ms 1500) req1) {| redis.val := 0; redis.err := None |})
           (pipeline_cmds (at_ms 1500) "b" req1)).
  - vm_compute. reflexivity.
  - left. discriminate.
Defined.

(** ** The expiry hint (C8) *)

(** C8.  Every Result, from the fast-reject path or from the write path,
    carries the evaluation time plus the window duration of the request;
    so the hints of two evaluations with the same duration differ by the
    difference of their evaluation times. *)
Theorem expires_at_is_evaluation_time_plus_window {S : Type} (h : Handler S)
    (now1 now2 : time.Time) (item1 item2 : string) (r1 r2 : Request)
    (s1 s1' s2 s2' : S) (res1 res2 : Result.t) (err1 err2 : option error)
    (tr1 tr2 : list Event) :
  evaluate h now1 item1 r1 s1 = ((Some res1, err1), s1', tr1) ->
  evaluate h now2 item2 r2 s2 = ((Some res2, err2), s2', tr2) ->
  Duration r1 = Duration r2 ->
  Result.ExpiresAt res1 = time.Add now1 (Duration r1)
  /\ Result.ExpiresAt res2 = time.Add now2 (Duration r2)
  /\ Result.ExpiresAt res2 - Result.ExpiresAt res1 = now2 - now1.
Proof.
  intros Heq1 Heq2 Hd.
  apply evaluate_inv in Heq1 as [Hspec1 _]. apply evaluate_inv in Heq2 as [Hspec2 _].
  assert (Result.ExpiresAt res1 = time.Add now1 (Duration r1)) as H1
    by (inversion Hspec1; subst; done).
  assert (Result.ExpiresAt res2 = time.Add now2 (Duration r2)) as H2
    by (inversion Hspec2; subst; done).
  split; [done|]. split; [done|].
  rewrite H1, H2, Hd. unfold time.Add. lia.
Qed.

(** Two evaluations of the same caller, 200 ms apart. *)
Lemma expires_at_is_evaluation_time_plus_window_witness :
  at_ms 2500 = time.Add (at_ms 1500) (Duration req1)
  /\ at_ms 2700 = time.Add (at_ms 1700) (Duration req1)
  /\ at_ms 2700 - at_ms 2500 = at_ms 1700 - at_ms 1500.
Proof.
  apply (expires_at_is_evaluation_time_plus_window healthy
           (at_ms 1500) (at_ms 1700) "b" "c" req1 req1
           one_record (after_evaluate (at_ms 1500) "b" req1 one_record)
           (after_evaluate (at_ms 1500) "b" req1 one_record)
           (after_evaluate (at_ms 1700) "c" req1
              (after_evaluate (at_ms 1500) "b" req1 one_record))
           {| Result.State := Deny; Result.TotalRequests := 2;
              Result.ExpiresAt := at_ms 2500 |}
           {| Result.State := Deny; Result.TotalRequests := 3;
              Result.ExpiresAt := at_ms 2700 |}
           None None
           (evaluate healthy (at_ms 1500) "b" req1 one_record).2
           (evaluate healthy (at_ms 1700) "c" req1
              (after_evaluate (at_ms 1500) "b" req1 one_record)).2).
  - vm_compute. reflexivity.
  - vm_compute. reflexivity.
  - reflexivity.
Defined.

(** ** The middleware (C9, C10) *)

(** When every header has a value, the key is the values joined by a dash. *)
Lemma extract_from_all (TrimSpace : string -> string) (req : http.Request)
    (keys values : list string) :
  Forall (fun key => TrimSpace (http.Get req key) <> "") keys ->
  extract_from TrimSpace req keys values
  = (String.concat "-" (values ++ map (fun key => TrimSpace (http.Get req key)) keys), None).
Proof.
  revert values. induction keys as [|key keys IH]; intros values Hall; cbn.
  - by rewrite app_nil_r.
  - apply Forall_cons in Hall as [Hkey Hall].
    rewrite decide_False by done. rewrite IH by done.
    by rewrite <- app_assoc.
Qed.

(** The first header without a value makes the extraction fail, with an
    empty key. *)
Lemma extract_from_missing (TrimSpace : string -> string) (req : http.Request)
    (keys values : list string) :
  Exists (fun key => TrimSpace (http.Get req key) = "") keys ->
  exists e, extract_from TrimSpace req keys values = ("", Some e).
Proof.
  revert values. induction keys as [|key keys IH]; intros values Hex; cbn.
  - by apply Exists_nil in Hex.
  - case_decide; [eauto|].
    apply Exists_cons in Hex as [Hkey|Hex]; [done|]. by apply IH.
Qed.

(** C9, counterexample.  A strategy that returns a Result whose state is 2,
    neither Deny (0) nor Allow (1), and no error: the middleware calls the
    wrapped handler. *)
Lemma next_only_on_allow_fails :
  ~ next_only_on_allow
      (RateLimitingMiddleware (fun _ => "") odd_config empty_writer any_request)
      (Strategy odd_config {| Key := "user"; Limit := 1; Duration := time.Second |}).
Proof.
  intros Hclaim.
  destruct (Hclaim _ _ eq_refl) as (result & Hout & Hallow).
  cbv in Hout. by simplify_eq.
Qed.

(** C9, amended.  For a request served on a writer that nothing was written
    to, once the key is extracted: an error of the evaluation gives a reply
    with status 500 and a Deny a reply with status 429, the wrapped handler
    being called in neither case; an Allow hands the request to the wrapped
    handler.  The wrapped handler is called only when the extraction and
    the evaluation succeed with a state other than Deny; that state is
    Allow whenever the strategy is the counter strategy of this package. *)
Theorem middleware_dispatch (FormatRFC3339 : time.Time -> string)
    (config : RateLimiterConfig) (res : http.ResponseWriter) (req : http.Request) :
  http.Status res = None ->
  let out := Strategy config {| Key := (Extractor config req).1;
                                Limit := MaxRequests config;
                                Duration := Expiration config |} in
  let served := RateLimitingMiddleware FormatRFC3339 config res req in
  ((Extractor config req).2 = None ->
     (forall result err, out = (result, Some err) ->
        exists w, served = Replied w
                  /\ http.Status w = Some http.StatusInternalServerError)
     /\ (forall result, out = (Some result, None) -> Result.State result = Deny ->
        exists w, served = Replied w
                  /\ http.Status w = Some http.StatusTooManyRequests)
     /\ (forall result, out = (Some result, None) -> Result.State result = Allow ->
        exists w, served = CalledNext w req))
  /\ (forall w req', served = CalledNext w req' ->
        req' = req /\ (Extractor config req).2 = None
        /\ exists result, out = (Some result, None) /\ Result.State result <> Deny)
  /\ (forall (S : Type) (h : Handler S) (s : S) now item,
        Strategy config = counterStrategy h s now item ->
        forall w req', served = CalledNext w req' ->
        exists result, out = (Some result, None) /\ Result.State result = Allow).
Proof.
  intros Hstatus out served.
  assert (Hnext : forall w req', served = CalledNext w req' ->
            req' = req /\ (Extractor config req).2 = None
            /\ exists result, out = (Some result, None) /\ Result.State result <> Deny).
  { intros w req'. unfold served, out, RateLimitingMiddleware.
    destruct (Extractor config req) as [key [xerr|]]; [done|]. cbn [fst snd].
    destruct (Strategy config _) as [[result|] [err|]]; try done.
    case_decide; [done|]. intros Heq. simplify_eq. eauto. }
  split; [|split; [exact Hnext|]].
  - intros Hx. unfold served, out, RateLimitingMiddleware.
    destruct (Extractor config req) as [key xerr]. cbn in Hx. subst xerr. cbn [fst].
    split; [|split].
    + intros result err ->. destruct result; (eexists; split; [reflexivity|]);
        cbn; by rewrite Hstatus.
    + intros result -> Hdeny. rewrite decide_True by done.
      eexists. split; [reflexivity|]. cbn. by rewrite Hstatus.
    + intros result -> Hallow. rewrite decide_False; [eauto|].
      rewrite Hallow. done.
  - intros S h s now item Hstrat w req' Hserved.
    destruct (Hnext w req' Hserved) as (_ & _ & result & Hout & Hstate).
    exists result. split; [done|].
    unfold out in Hout. rewrite Hstrat in Hout. unfold counterStrategy in Hout.
    destruct (evaluate h now item _ s) as [[[r1 e1] s'] tr] eqn:Heq. cbn in Hout.
    simplify_eq. by destruct (run_state _ _ _ _ _ _ _ _ _ Heq).
Qed.

(** The counter strategy over a store that holds one record, under limit 1:
    the request is denied and answered with status 429. *)
Lemma middleware_dispatch_witness :
  exists w,
    RateLimitingMiddleware (fun _ => "") counter_config empty_writer any_request = Replied w
    /\ http.Status w = Some http.StatusTooManyRequests.
Proof.
  refine (proj1 (proj2 (proj1 (middleware_dispatch (fun _ => "") counter_config
                                 empty_writer any_request _) _))
            {| Result.State := Deny; Result.TotalRequests := 2;
               Result.ExpiresAt := at_ms 2500 |} _ _).
  - reflexivity.
  - reflexivity.
  - vm_compute. reflexivity.
  - reflexivity.
Defined.

(** C10.  The extractor built from no header name returns the empty key and
    no error for every request; a middleware configured with it evaluates
    the strategy exactly as with an extractor that always answers the empty
    key. *)
Theorem empty_extractor_yields_empty_key (TrimSpace : string -> string)
    (FormatRFC3339 : time.Time -> string) (req : http.Request)
    (strategy : Request -> Outcome) (expiration : time.Duration) (maxRequests : Z)
    (res : http.ResponseWriter) :
  Extract TrimSpace (NewHTTPHeadersExtractor []) req = ("", None)
  /\ RateLimitingMiddleware FormatRFC3339
       {| Extractor := Extract TrimSpace (NewHTTPHeadersExtractor []);
          Strategy := strategy; Expiration := expiration; MaxRequests := maxRequests |}
       res req
     = RateLimitingMiddleware FormatRFC3339
         {| Extractor := fun _ => ("", None);
            Strategy := strategy; Expiration := expiration; MaxRequests := maxRequests |}
         res req.
Proof.
  split.
  - unfold Extract, NewHTTPHeadersExtractor. cbn [headers].
    by rewrite extract_from_all by constructor.
  - reflexivity.
Qed.

(** * Further properties of the code *)

(** ** [Extract] *)

Lemma append_assoc (a b c : string) : (a +:+ b) +:+ c = a +:+ (b +:+ c).
Proof.
  induction a as [|x a IH]; [reflexivity|].
  change (String x ((a +:+ b) +:+ c) = String x (a +:+ (b +:+ c))).
  by rewrite IH.
Qed.

Lemma extract_from_ok_iff (TrimSpace : string -> string) (req : http.Request)
    (keys values : list string) :
  (extract_from TrimSpace req keys values).2 = None
  <-> Forall (has_value TrimSpace req) keys.
Proof.
  revert values. induction keys as [|key keys IH]; intros values; cbn.
  - split; [constructor|done].
  - case_decide as Hv; cbn.
    + split; [done|]. intros Hall. apply Forall_cons in Hall as [Hkey _]. done.
    + rewrite IH. split; [by constructor|]. intros Hall. by apply Forall_cons in Hall as [_ ?].
Qed.

(** X1.  [Extract] succeeds exactly when every configured header has a
    value left after trimming; the key is then the trimmed values, in the
    order of the configured names, joined by a dash. *)
Theorem Extract_succeeds_iff_all_headers_set (TrimSpace : string -> string)
    (h : httpHeaderExtractor) (req : http.Request) :
  ((Extract TrimSpace h req).2 = None <-> Forall (has_value TrimSpace req) (headers h))
  /\ ((Extract TrimSpace h req).2 = None ->
      (Extract TrimSpace h req).1
      = String.concat "-" (header_values TrimSpace req (headers h))).
Proof.
  unfold Extract. split; [apply extract_from_ok_iff|].
  intros Hok. apply extract_from_ok_iff in Hok.
  by rewrite extract_from_all by done.
Qed.

(** The loop stops at the first header without a value. *)
Lemma extract_from_first_missing (TrimSpace : string -> string) (req : http.Request)
    (before after values : list string) (key : string) :
  Forall (has_value TrimSpace req) before ->
  TrimSpace (http.Get req key) = "" ->
  extract_from TrimSpace req (before ++ key :: after) values
  = ("", Some (ErrNew ("the header " +:+ key +:+ " must have a value set"))).
Proof.
  intros Hbefore Hkey. revert values.
  induction before as [|k before IH]; intros values; cbn.
  - by rewrite decide_True.
  - apply Forall_cons in Hbefore as [Hk Hbefore].
    rewrite decide_False by done. by apply IH.
Qed.

(** X2.  When a configured header has no value, and all the headers
    configured before it have one, [Extract] returns the empty key and an
    error that names that header; the headers configured after it are not
    looked at. *)
Theorem Extract_names_first_header_without_value (TrimSpace : string -> string)
    (req : http.Request) (before after : list string) (key : string) :
  Forall (has_value TrimSpace req) before ->
  TrimSpace (http.Get req key) = "" ->
  Extract TrimSpace (NewHTTPHeadersExtractor (before ++ key :: after)) req
  = ("", Some (ErrNew ("the header " +:+ key +:+ " must have a value set"))).
Proof.
  intros Hbefore Hkey. unfold Extract, NewHTTPHeadersExtractor. cbn [headers].
  by apply extract_from_first_missing.
Qed.

Lemma Extract_names_first_header_without_value_witness :
  Extract (fun s => s) (NewHTTPHeadersExtractor (["X-Tenant"] ++ "X-User" :: ["X-Device"]))
    (request_with [("X-Tenant", "acme"); ("X-Device", "phone")])
  = ("", Some (ErrNew ("the header " +:+ "X-User" +:+ " must have a value set"))).
Proof.
  apply (Extract_names_first_header_without_value (fun s => s)
           (request_with [("X-Tenant", "acme"); ("X-Device", "phone")])
           ["X-Tenant"] ["X-Device"] "X-User").
  - repeat constructor. vm_compute. discriminate.
  - vm_compute. reflexivity.
Defined.

(** X3.  The key does not tell the header values apart: with two configured
    headers, the values [a-b] and [c] give the same key as the values [a]
    and [b-c], so two different callers share one quota. *)
Theorem Extract_key_is_not_injective (TrimSpace : string -> string)
    (h1 h2 a b c : string) (reqA reqB : http.Request) :
  TrimSpace (http.Get reqA h1) = a +:+ "-" +:+ b ->
  TrimSpace (http.Get reqA h2) = c ->
  TrimSpace (http.Get reqB h1) = a ->
  TrimSpace (http.Get reqB h2) = b +:+ "-" +:+ c ->
  a <> "" -> c <> "" ->
  Extract TrimSpace (NewHTTPHeadersExtractor [h1; h2]) reqA
  = (a +:+ "-" +:+ b +:+ "-" +:+ c, None)
  /\ Extract TrimSpace (NewHTTPHeadersExtractor [h1; h2]) reqB
     = (a +:+ "-" +:+ b +:+ "-" +:+ c, None).
Proof.
  intros HA1 HA2 HB1 HB2 Ha Hc.
  unfold Extract, NewHTTPHeadersExtractor. cbn [headers].
  split.
  - rewrite extract_from_all.
    + cbn. rewrite HA1, HA2. by rewrite !append_assoc.
    + repeat constructor; unfold has_value.
      * rewrite HA1. by destruct a.
      * by rewrite HA2.
  - rewrite extract_from_all.
    + cbn. by rewrite HB1, HB2.
    + repeat constructor; unfold has_value.
      * by rewrite HB1.
      * rewrite HB2. by destruct b.
Qed.

Lemma Extract_key_is_not_injective_witness :
  Extract (fun s => s) (NewHTTPHeadersExtractor ["X-Tenant"; "X-User"])
    (request_with [("X-Tenant", "acme-eu"); ("X-User", "bob")])
  = ("acme" +:+ "-" +:+ "eu" +:+ "-" +:+ "bob", None)
  /\ Extract (fun s => s) (NewHTTPHeadersExtractor ["X-Tenant"; "X-User"])
       (request_with [("X-Tenant", "acme"); ("X-User", "eu-bob")])
     = ("acme" +:+ "-" +:+ "eu" +:+ "-" +:+ "bob", None).
Proof.
  apply (Extract_key_is_not_injective (fun s => s) "X-Tenant" "X-User" "acme" "eu" "bob"
           (request_with [("X-Tenant", "acme-eu"); ("X-User", "bob")])
           (request_with [("X-Tenant", "acme"); ("X-User", "eu-bob")]));
    try (vm_compute; reflexivity); discriminate.
Defined.

(** ** [Run], against any client *)

(** X4.  Whatever the client answers, [Run] returns either a Result and no
    error, or an error and no Result: never both, never neither. *)
Theorem run_returns_result_or_error {S : Type} (h : Handler S) (now : time.Time)
    (item : string) (r : Request) (s : S) :
  (exists res, (evaluate h now item r s).1.1 = (Some res, None))
  \/ (exists err, (evaluate h now item r s).1.1 = (None, Some err)).
Proof.
  pose proof (evaluate_spec h now item r s) as Hspec.
  inversion Hspec; eauto.
Qed.

(** X5.  Whatever the client answers, one evaluation makes one or two round
    trips; every command it sends addresses the key of the request; and it
    either writes nothing, or writes the prune of [0, now - D] followed by
    the insertion of its record at the score [now], both in the second
    round trip. *)
Theorem run_round_trips {S : Type} (h : Handler S) (now : time.Time)
    (item : string) (r : Request) (s : S) :
  (1 <= length (evaluate h now item r s).2 <= 2)%nat
  /\ Forall (fun c => cmd_key c = Key r) (trace_cmds (evaluate h now item r s).2)
  /\ writes (firstn 1 (evaluate h now item r s).2) = []
  /\ (writes (evaluate h now item r s).2 = []
      \/ writes (evaluate h now item r s).2
         = [ redis.ZRemRangeByScore (Key r) (redis.Score 0)
               (redis.Score (time.UnixMilli (time.Add now (time.neg (Duration r)))));
             redis.ZAdd (Key r) (time.UnixMilli now) item ]).
Proof.
  pose proof (evaluate_spec h now item r s) as Hspec.
  inversion Hspec; cbn; (split; [lia|]); (split; [by repeat constructor|]);
    (split; [done|]); auto.
Qed.

(** ** [Run], against the healthy store *)

(** The outcome on a healthy store depends on the store through the set of
    the key only. *)
Lemma evaluate_healthy_outcome now item r st :
  (evaluate healthy now item r st).1.1
  = (Some {| Result.State :=
               if bool_decide (Limit r <
                    uint64 (Z.of_nat (size (after_pipeline now item r (store.zset_of st (Key r))))))
               then Deny else Allow;
             Result.TotalRequests :=
               uint64 (Z.of_nat (size (after_pipeline now item r (store.zset_of st (Key r)))));
             Result.ExpiresAt := time.Add now (Duration r) |}, None)
  /\ (evaluate healthy now item r st).1.2 = after_evaluate now item r st.
Proof.
  destruct (evaluate_healthy now item r st) as (tr & -> & _).
  by rewrite zset_of_after_evaluate.
Qed.

(** X6.  Keys are isolated: an evaluation under one key leaves the set of
    every other key as it was, and its outcome is the same whatever another
    key holds. *)
Theorem keys_are_isolated (now : time.Time) (item : string) (r : Request)
    (st : gmap string (gmap string Z)) (other : string) (zs : gmap string Z) :
  Key r <> other ->
  store.zset_of (evaluate healthy now item r st).1.2 other = store.zset_of st other
  /\ (evaluate healthy now item r (<[other := zs]> st)).1.1
     = (evaluate healthy now item r st).1.1.
Proof.
  intros Hne.
  destruct (evaluate_healthy_outcome now item r st) as [Hout Hst].
  destruct (evaluate_healthy_outcome now item r (<[other := zs]> st)) as [Hout' _].
  rewrite Hst, Hout, Hout'. split.
  - by apply zset_of_after_evaluate_ne.
  - by rewrite zset_of_insert_ne.
Qed.

Lemma keys_are_isolated_witness :
  store.zset_of (evaluate healthy (at_ms 1500) "b" req1 one_record).1.2 "admin"
  = store.zset_of one_record "admin"
  /\ (evaluate healthy (at_ms 1500) "b" req1
        (<["admin" := {[ "x" := 1400; "y" := 1450 ]}]> one_record)).1.1
     = (evaluate healthy (at_ms 1500) "b" req1 one_record).1.1.
Proof.
  apply (keys_are_isolated (at_ms 1500) "b" req1 one_record "admin"
           {[ "x" := 1400; "y" := 1450 ]}).
  discriminate.
Defined.


(** When every record of the key is stale, the pipeline leaves the new
    record alone under the key. *)
Lemma after_pipeline_all_stale now item r (zs : gmap string Z) :
  (forall m s, zs !! m = Some s -> 0 <= s <= window_start_ms now r) ->
  after_pipeline now item r zs = {[ item := time.UnixMilli now ]}.
Proof.
  intros Hstale. unfold after_pipeline.
  replace (store.outside (redis.Score 0) (redis.Score (window_start_ms now r)) zs)
    with (∅ : gmap string Z); [done|].
  symmetry. apply map_empty. intros m. unfold store.outside.
  apply map_lookup_filter_None. right.
  intros s Hs. cbn. rewrite (proj2 (in_range_scores 0 _ s)); [done|]. by apply (Hstale m).
Qed.

Lemma evaluate_healthy_single now item r st :
  1 <= Limit r ->
  after_pipeline now item r (store.zset_of st (Key r)) = {[ item := time.UnixMilli now ]} ->
  (evaluate healthy now item r st).1.1
  = (Some {| Result.State := Allow;
             Result.TotalRequests := 1;
             Result.ExpiresAt := time.Add now (Duration r) |}, None)
  /\ store.zset_of (evaluate healthy now item r st).1.2 (Key r)
     = {[ item := time.UnixMilli now ]}.
Proof.
  intros Hlimit Hzs.
  destruct (evaluate_healthy_outcome now item r st) as [-> ->].
  rewrite zset_of_after_evaluate, Hzs, map_size_singleton.
  split; [|done]. rewrite uint64_small by lia.
  by rewrite bool_decide_false by lia.
Qed.

(** X8.  The window rolls off: when every record of the key is at least one
    window old (its score lies in [0, now - D]), and the limit is at least
    one, the evaluation is allowed with a total of 1, and the key is left
    with the record of the evaluation alone. *)
Theorem window_rolls_off (now : time.Time) (item : string) (r : Request)
    (st : gmap string (gmap string Z)) :
  1 <= Limit r ->
  (forall m s, store.zset_of st (Key r) !! m = Some s -> 0 <= s <= window_start_ms now r) ->
  (evaluate healthy now item r st).1.1
  = (Some {| Result.State := Allow;
             Result.TotalRequests := 1;
             Result.ExpiresAt := time.Add now (Duration r) |}, None)
  /\ store.zset_of (evaluate healthy now item r st).1.2 (Key r)
     = {[ item := time.UnixMilli now ]}.
Proof.
  intros Hlimit Hstale. apply evaluate_healthy_single; [done|].
  by apply after_pipeline_all_stale.
Qed.

(** At 2100 ms, under limit 1 and a window of one second, the record of
    1000 ms has rolled off. *)
Lemma window_rolls_off_witness :
  (evaluate healthy (at_ms 2100) "b" req1 one_record).1.1
  = (Some {| Result.State := Allow;
             Result.TotalRequests := 1;
             Result.ExpiresAt := time.Add (at_ms 2100) (Duration req1) |}, None)
  /\ store.zset_of (evaluate healthy (at_ms 2100) "b" req1 one_record).1.2 (Key req1)
     = {[ "b" := time.UnixMilli (at_ms 2100) ]}.
Proof.
  apply (window_rolls_off (at_ms 2100) "b" req1 one_record).
  - vm_compute. discriminate.
  - intros m s Hm. change (store.zset_of one_record (Key req1)) with
      ({[ "a" := 1000 ]} : gmap string Z) in Hm.
    apply lookup_singleton_Some in Hm as [_ <-]. vm_compute. split; discriminate.
Defined.

(** X9.  A window duration that is zero or negative switches the limiter
    off: when no record of the key is later than [now] (nor before the
    epoch), every evaluation under a limit of at least one is allowed with a
    total of 1, whatever the number of records. *)
Theorem non_positive_window_never_denies (now : time.Time) (item : string) (r : Request)
    (st : gmap string (gmap string Z)) :
  - 2 ^ 63 < Duration r <= 0 ->
  1 <= Limit r ->
  (forall m s, store.zset_of st (Key r) !! m = Some s -> 0 <= s <= time.UnixMilli now) ->
  (evaluate healthy now item r st).1.1
  = (Some {| Result.State := Allow;
             Result.TotalRequests := 1;
             Result.ExpiresAt := time.Add now (Duration r) |}, None).
Proof.
  intros Hd Hlimit Hpast. apply evaluate_healthy_single; [done|].
  apply after_pipeline_all_stale. intros m s Hm.
  rewrite window_start_ms_exact by lia.
  specialize (Hpast m s Hm). split; [lia|].
  etrans; [apply Hpast|]. unfold time.UnixMilli.
  apply Z.div_le_mono; lia.
Qed.

Lemma non_positive_window_never_denies_witness :
  (evaluate healthy (at_ms 1500) "d" req_no_window three_records).1.1
  = (Some {| Result.State := Allow;
             Result.TotalRequests := 1;
             Result.ExpiresAt := time.Add (at_ms 1500) (Duration req_no_window) |}, None).
Proof.
  apply (non_positive_window_never_denies (at_ms 1500) "d" req_no_window three_records).
  - split; [reflexivity | discriminate].
  - discriminate.
  - intros m s Hm. change (store.zset_of three_records (Key req_no_window)) with
      ({[ "a" := 1498; "b" := 1499; "c" := 1500 ]} : gmap string Z) in Hm.
    change (time.UnixMilli (at_ms 1500)) with 1500.
    rewrite !lookup_insert_Some, lookup_singleton_Some in Hm.
    destruct Hm as [[_ <-]|[_ [[_ <-]|[_ [_ <-]]]]]; lia.
Defined.

(** X10.  The record of the evaluation always counts: on a healthy store
    the total of a Result is at least 1 and at most one more than the
    number of records the key held.  So under a limit of zero every
    evaluation is denied, and its record is inserted all the same. *)
Theorem total_counts_the_new_record (now : time.Time) (item : string) (r : Request)
    (st : gmap string (gmap string Z)) :
  Z.of_nat (size (store.zset_of st (Key r))) + 1 < 2 ^ 64 ->
  exists res,
    (evaluate healthy now item r st).1.1 = (Some res, None)
    /\ 1 <= Result.TotalRequests res <= Z.of_nat (size (store.zset_of st (Key r))) + 1
    /\ (Limit r = 0 ->
        Result.State res = Deny
        /\ store.zset_of (evaluate healthy now item r st).1.2 (Key r) !! item
           = Some (time.UnixMilli now)).
Proof.
  intros Hsize.
  destruct (evaluate_healthy_outcome now item r st) as [-> ->].
  eexists. split; [reflexivity|]. cbn [Result.TotalRequests Result.State].
  assert (1 <= Z.of_nat (size (after_pipeline now item r (store.zset_of st (Key r))))
          <= Z.of_nat (size (store.zset_of st (Key r))) + 1) as Hbounds.
  { unfold after_pipeline. rewrite map_size_insert.
    pose proof (map_subseteq_size _ _
      (map_filter_subseteq
         (fun ms : string * Z =>
            store.in_range (redis.Score 0) (redis.Score (window_start_ms now r)) ms.2 = false)
         (store.zset_of st (Key r)))) as Hle.
    unfold store.outside.
    destruct (filter _ (store.zset_of st (Key r)) !! item) eqn:Hitem; cbn.
    - pose proof (map_size_ne_0_lookup_2 _ _ (mk_is_Some _ _ Hitem)). lia.
    - lia. }
  rewrite uint64_small by lia. split; [done|].
  intros Hzero. split.
  - rewrite bool_decide_true by lia. done.
  - rewrite zset_of_after_evaluate. unfold after_pipeline. by rewrite lookup_insert_eq.
Qed.

Lemma total_counts_the_new_record_witness :
  exists res,
    (evaluate healthy (at_ms 1500) "b" req0 ∅).1.1 = (Some res, None)
    /\ 1 <= Result.TotalRequests res <= Z.of_nat (size (store.zset_of ∅ (Key req0))) + 1
    /\ (Limit req0 = 0 ->
        Result.State res = Deny
        /\ store.zset_of (evaluate healthy (at_ms 1500) "b" req0 ∅).1.2 (Key req0) !! "b"
           = Some (time.UnixMilli (at_ms 1500))).
Proof.
  apply (total_counts_the_new_record (at_ms 1500) "b" req0 ∅).
  reflexivity.
Defined.




(** ** The middleware *)

(** X12.  A request that lacks a configured header is answered with status
    400 and a body that names the header; the strategy is not consulted
    (the answer is the same for every strategy) and the wrapped handler is
    not called. *)
Theorem missing_header_is_a_bad_request (TrimSpace : string -> string)
    (FormatRFC3339 : time.Time -> string) (before after : list string) (key : string)
    (strategy : Request -> Outcome) (expiration : time.Duration) (maxRequests : Z)
    (res : http.ResponseWriter) (req : http.Request) :
  Forall (has_value TrimSpace req) before ->
  TrimSpace (http.Get req key) = "" ->
  http.Status res = None ->
  RateLimitingMiddleware FormatRFC3339
    {| Extractor := Extract TrimSpace (NewHTTPHeadersExtractor (before ++ key :: after));
       Strategy := strategy; Expiration := expiration; MaxRequests := maxRequests |}
    res req
  = Replied {| http.Header := <["Content-Type" := "text/plain"]> (http.Header res);
               http.Status := Some http.StatusBadRequest;
               http.Body := http.Body res +:+
                 "failed to collect rate limiting key from request: the header "
                 +:+ key +:+ " must have a value set" |}.
Proof.
  intros Hbefore Hkey Hstatus. unfold RateLimitingMiddleware. cbn [Extractor].
  unfold Extract, NewHTTPHeadersExtractor. cbn [headers].
  rewrite extract_from_first_missing by done.
  unfold writeResponse, http.Write, http.WriteHeader, http.Set_. cbn.
  by rewrite Hstatus.
Qed.

Lemma missing_header_is_a_bad_request_witness :
  RateLimitingMiddleware (fun _ => "")
    {| Extractor := Extract (fun s => s)
                      (NewHTTPHeadersExtractor (["X-Tenant"] ++ "X-User" :: ["X-Device"]));
       Strategy := odd_strategy; Expiration := time.Second; MaxRequests := 1 |}
    empty_writer (request_with [("X-Tenant", "acme"); ("X-Device", "phone")])
  = Replied {| http.Header := <["Content-Type" := "text/plain"]> (http.Header empty_writer);
               http.Status := Some http.StatusBadRequest;
               http.Body := http.Body empty_writer +:+
                 "failed to collect rate limiting key from request: the header "
                 +:+ "X-User" +:+ " must have a value set" |}.
Proof.
  apply (missing_header_is_a_bad_request (fun s => s) (fun _ => "")
           ["X-Tenant"] ["X-Device"] "X-User" odd_strategy time.Second 1 empty_writer
           (request_with [("X-Tenant", "acme"); ("X-Device", "phone")])).
  - repeat constructor. vm_compute. discriminate.
  - vm_compute. reflexivity.
  - reflexivity.
Defined.

(** The three headers, on the writer they were set on. *)
Lemma rate_limiting_headers (total state expires : string) (res : http.ResponseWriter) :
  let w := http.Set_ rateLimitingExpiresAt expires
             (http.Set_ rateLimitingState state
                (http.Set_ rateLimitingTotalRequests total res)) in
  http.Header w !! rateLimitingTotalRequests = Some total
  /\ http.Header w !! rateLimitingState = Some state
  /\ http.Header w !! rateLimitingExpiresAt = Some expires
  /\ http.Status w = http.Status res /\ http.Body w = http.Body res.
Proof.
  cbn. unfold rateLimitingExpiresAt, rateLimitingState, rateLimitingTotalRequests.
  repeat split.
  - rewrite !lookup_insert_ne by done. apply lookup_insert_eq.
  - rewrite lookup_insert_ne by done. apply lookup_insert_eq.
  - apply lookup_insert_eq.
Qed.

Lemma state_string (state : State) :
  default "" (stateStrings !! state)
  = if decide (state = Allow) then "Allow" else if decide (state = Deny) then "Deny" else "".
Proof.
  unfold stateStrings, Allow, Deny.
  destruct (decide (state = 1)) as [->|H1]; [done|].
  destruct (decide (state = 0)) as [->|H0]; [done|].
  rewrite lookup_insert_ne by done. by rewrite lookup_singleton_ne.
Qed.

(** X13.  Whenever the evaluation gives a Result, allowed or denied, the
    answer carries the three rate-limiting headers: the total in decimal,
    the state as "Allow" or "Deny" (the empty string for any other state),
    and the formatted expiry.  A denied request gets them on the 429 reply,
    an allowed one on the writer handed to the wrapped handler. *)
Theorem results_are_published_in_headers (FormatRFC3339 : time.Time -> string)
    (config : RateLimiterConfig) (res : http.ResponseWriter) (req : http.Request)
    (key : string) (result : Result.t) :
  Extractor config req = (key, None) ->
  Strategy config {| Key := key; Limit := MaxRequests config;
                     Duration := Expiration config |} = (Some result, None) ->
  exists w,
    ((Result.State result = Deny
      /\ RateLimitingMiddleware FormatRFC3339 config res req = Replied w
      /\ http.Header w !! "Content-Type" = Some "text/plain")
     \/ (Result.State result <> Deny
         /\ RateLimitingMiddleware FormatRFC3339 config res req = CalledNext w req
         /\ http.Status w = http.Status res /\ http.Body w = http.Body res))
    /\ http.Header w !! "Rate-Limiting-Total-Requests"
       = Some (FormatUint (Result.TotalRequests result))
    /\ http.Header w !! "Rate-Limiting-State"
       = Some (if decide (Result.State result = Allow) then "Allow"
               else if decide (Result.State result = Deny) then "Deny" else "")
    /\ http.Header w !! "Rate-Limiting-Expires-At"
       = Some (FormatRFC3339 (Result.ExpiresAt result)).
Proof.
  intros Hkey Hout. unfold RateLimitingMiddleware. rewrite Hkey, Hout.
  rewrite state_string.
  pose proof (rate_limiting_headers (FormatUint (Result.TotalRequests result))
                (if decide (Result.State result = Allow) then "Allow"
                 else if decide (Result.State result = Deny) then "Deny" else "")
                (FormatRFC3339 (Result.ExpiresAt result)) res) as (Ht & Hs & He & Hst & Hb).
  destruct (decide (Result.State result = Deny)) as [Hdeny|Hdeny].
  - eexists. split; [left; split; [done|]; split; [reflexivity|]|].
    + cbn. by rewrite lookup_insert_eq.
    + cbn. cbn in Ht, Hs, He. rewrite !(lookup_insert_ne _ "Content-Type") by done.
      done.
  - eexists. split; [right; split; [done|]; split; [reflexivity|done]|]. done.
Qed.

Lemma results_are_published_in_headers_witness :
  exists w,
    ((Result.State {| Result.State := Deny; Result.TotalRequests := 2;
                      Result.ExpiresAt := at_ms 2500 |} = Deny
      /\ RateLimitingMiddleware (fun _ => "later") counter_config empty_writer any_request
         = Replied w
      /\ http.Header w !! "Content-Type" = Some "text/plain")
     \/ (Result.State {| Result.State := Deny; Result.TotalRequests := 2;
                         Result.ExpiresAt := at_ms 2500 |} <> Deny
         /\ RateLimitingMiddleware (fun _ => "later") counter_config empty_writer any_request
            = CalledNext w any_request
         /\ http.Status w = http.Status empty_writer
         /\ http.Body w = http.Body empty_writer))
    /\ http.Header w !! "Rate-Limiting-Total-Requests" = Some (FormatUint 2)
    /\ http.Header w !! "Rate-Limiting-State"
       = Some (if decide (Deny = Allow) then "Allow"
               else if decide (Deny = Deny) then "Deny" else "")
    /\ http.Header w !! "Rate-Limiting-Expires-At" = Some "later".
Proof.
  apply (results_are_published_in_headers (fun _ => "later") counter_config empty_writer
           any_request "user"
           {| Result.State := Deny; Result.TotalRequests := 2;
              Result.ExpiresAt := at_ms 2500 |}).
  - reflexivity.
  - vm_compute. reflexivity.
Defined.

(** X14.  With the counter strategy the middleware never dereferences a nil
    Result: whatever the client of the store answers, the request is either
    answered or handed to the wrapped handler. *)
Theorem counter_strategy_never_panics {S : Type} (FormatRFC3339 : time.Time -> string)
    (extractor : http.Request -> string * option error) (h : Handler S) (s : S)
    (now : time.Time) (item : string) (expiration : time.Duration) (maxRequests : Z)
    (res : http.ResponseWriter) (req : http.Request) :
  RateLimitingMiddleware FormatRFC3339
    {| Extractor := extractor; Strategy := counterStrategy h s now item;
       Expiration := expiration; MaxRequests := maxRequests |} res req
  <> Panicked.
Proof.
  unfold RateLimitingMiddleware. cbn [Extractor Strategy MaxRequests Expiration].
  destruct (extractor req) as [key [xerr|]]; [done|].
  unfold counterStrategy.
  pose proof (evaluate_spec h now item
                {| Key := key; Limit := maxRequests; Duration := expiration |} s) as Hspec.
  destruct (evaluate h now item _ s) as [[[result err] s'] tr]. cbn in Hspec |- *.
  inversion Hspec; subst; try done; by case_decide.
Qed.



(** ** The sliding window, evaluation after evaluation *)








(** The same calls, evaluated: the third is denied (three calls inside one
    second), the fourth too (the calls of 1100 and 1900 ms are less than a
    second old at 2050 ms). *)
Example four_calls_under_limit_two :
  map (fun out => Result.State <$> out.1) (evaluate_all healthy req2 calls4 ∅).1
  = [Some Allow; Some Allow; Some Deny; Some Deny]
  /\ still_in_window req2 (at_ms 2050) (take 3 calls4) = 2%nat.
Proof. split; vm_compute; reflexivity. Qed.
